(** * esthree: a promise-returning facade over an S3 client

    Shallow embedding of [lib/bucket.js]: the [Bucket] class (entry
    operations on one bucket) and the four exported bucket-level functions
    [create], [get], [has] and [remove].

    Every operation of the source has the same shape,

      new Promise((resolve, reject) => client.m({...opts, F: v, ...}, cb))

    so the embedding consists of
    - JavaScript values, with the two tests the callbacks perform on them
      (truthiness and strict equality with [null]);
    - request objects as finite maps from property names to values;
    - the promise as a one-shot state machine;
    - the S3 client as an arbitrary function from a method and a request to
      what it then does with the callback it was handed. *)

From Stdlib Require Import PrimFloat.
From stdpp Require Import base option list strings gmap.

Local Open Scope string_scope.

(** ** JavaScript values *)

(** Objects are known to this layer by reference only: it never reads a
    property of an error or of a result, it just hands them on.  Equality of
    two [VObject]s is therefore object identity. *)
Inductive value :=
| VUndefined
| VNull
| VBoolean (b : bool)
| VNumber (x : float)
| VBigInt (n : Z)
| VString (s : string)
| VSymbol (id : positive)
| VObject (ref : positive).

(** ToBoolean: what [err ? _ : _] and [!err] test. *)
Definition truthy (v : value) : bool :=
  match v with
  | VUndefined | VNull => false
  | VBoolean b => b
  | VNumber x => negb (PrimFloat.is_zero x || PrimFloat.is_nan x)
  | VBigInt n => negb (Z.eqb n 0)
  | VString s => negb (String.eqb s "")
  | VSymbol _ | VObject _ => true
  end.

(** [a === b] *)
Definition strict_eq (a b : value) : bool :=
  match a, b with
  | VUndefined, VUndefined => true
  | VNull, VNull => true
  | VBoolean x, VBoolean y => Bool.eqb x y
  | VNumber x, VNumber y => PrimFloat.eqb x y
  | VBigInt x, VBigInt y => Z.eqb x y
  | VString x, VString y => String.eqb x y
  | VSymbol x, VSymbol y => Pos.eqb x y
  | VObject x, VObject y => Pos.eqb x y
  | _, _ => false
  end.

(** A plain object used as a mapping: its own enumerable string-keyed
    properties. *)
Abbreviation object := (gmap string value).

(** [opts = {}] in a parameter list: an omitted (or [undefined]) argument
    is replaced by the empty object. *)
Definition default_opts (opts : option object) : object :=
  match opts with
  | Some o => o
  | None => ∅
  end.

(** ** Promises *)

Inductive Promise (T : Type) :=
| Pending
| Fulfilled (v : T)
| Rejected (reason : value).
Arguments Pending {T}.
Arguments Fulfilled {T} v.
Arguments Rejected {T} reason.

(** The resolving functions of a promise act on its state, and only the
    first call has an effect. *)
Definition settle (T : Type) := Promise T → Promise T.

Definition resolve {T} (v : T) : settle T :=
  fun p => match p with Pending => Fulfilled v | _ => p end.

Definition reject {T} (e : value) : settle T :=
  fun p => match p with Pending => Rejected e | _ => p end.

(** ** The S3 client *)

Inductive method :=
| createBucket | headBucket | deleteBucket | getBucketLocation
| getObject | headObject | putObject | deleteObject | copyObject.

(** What a client method does with the callback [(err, data) => ...] it
    receives: it may invoke it while the method is still running, then
    either returns or throws, and may invoke it again later (from the event
    loop), any number of times each. *)
Record behaviour := Behaviour {
  sync_calls : list (value * value);
  throws : option value;
  async_calls : list (value * value)
}.

Definition S3 := method → object → behaviour.

Definition callback (T : Type) := value → value → settle T.

(** [client.m(params, cb)] as it stands in the body of an executor. *)
Record invocation (T : Type) := call {
  target : S3;
  via : method;
  params : object;
  cb : callback T
}.
Arguments call {T} target via params cb.
Arguments target {T} i.
Arguments via {T} i.
Arguments params {T} i.
Arguments cb {T} i.

(** What an operation amounts to, seen from outside: the request that went
    to the backend and the eventual state of the promise it returned. *)
Record Operation (T : Type) := {
  request : method * object;
  promise : Promise T
}.
Arguments request {T} o.
Arguments promise {T} o.

Definition run_calls {T} (f : callback T) (calls : list (value * value))
    (p : Promise T) : Promise T :=
  foldl (fun p c => f c.1 c.2 p) p calls.

(** [new Promise(executor)]: the executor runs at once; if it throws, the
    promise is rejected with what was thrown (unless already settled).
    Callback invocations arriving later still reach the resolving
    functions. *)
Definition new_Promise {T}
    (executor : (T → settle T) → (value → settle T) → invocation T)
    : Operation T :=
  let i := executor resolve reject in
  let b := target i (via i) (params i) in
  let p1 := run_calls (cb i) (sync_calls b) Pending in
  let p2 := match throws b with Some e => reject e p1 | None => p1 end in
  {| request := (via i, params i);
     promise := run_calls (cb i) (async_calls b) p2 |}.

(** ** class Bucket *)

Module Bucket.

(** [constructor(client, bucket)] *)
Record Bucket := new { client : S3; bucket : string }.

(** A method receives [this] and returns it together with its result;
    no method of the class assigns to a field. *)
Definition Method (T : Type) := Bucket → Bucket * Operation T.

(** An object literal [{...opts, F: v, G: w}] copies the properties of
    [opts] and then writes [F] and [G] in that order, so the innermost
    insertion below is the first property written after the spread.

    [location(opts = {})] calls
    [getBucketLocation({...opts, Bucket: this.bucket}, (err, data) =>
       err ? reject(err) : resolve(data))]. *)
Definition location (opts : option object) : Method value := fun this =>
  (this,
   new_Promise (fun resolve reject =>
     call (client this) getBucketLocation
       (<["Bucket" := VString (bucket this)]> (default_opts opts))
       (fun err data => if truthy err then reject err else resolve data))).

(** [get(key, opts = {})] calls
    [getObject({...opts, Bucket: this.bucket, Key: key}, (err, data) =>
       err ? reject(err) : resolve(data))]. *)
Definition get (key : string) (opts : option object) : Method value :=
  fun this =>
  (this,
   new_Promise (fun resolve reject =>
     call (client this) getObject
       (<["Key" := VString key]>
          (<["Bucket" := VString (bucket this)]> (default_opts opts)))
       (fun err data => if truthy err then reject err else resolve data))).

(** [has(key, opts = {})] calls
    [headObject({...opts, Bucket: this.bucket, Key: key}, (err, data) =>
       resolve(!err && data !== null))]; its executor takes [resolve]
    only.  [!err] is a boolean, so the value resolved with is one too. *)
Definition has (key : string) (opts : option object) : Method bool :=
  fun this =>
  (this,
   new_Promise (fun resolve _ =>
     call (client this) headObject
       (<["Key" := VString key]>
          (<["Bucket" := VString (bucket this)]> (default_opts opts)))
       (fun err data =>
          resolve (negb (truthy err) && negb (strict_eq data VNull))))).

(** [head(key, opts = {})] calls
    [headObject({...opts, Bucket: this.bucket, Key: key}, (err, data) =>
       err ? reject(err) : resolve(data))]. *)
Definition head (key : string) (opts : option object) : Method value :=
  fun this =>
  (this,
   new_Promise (fun resolve reject =>
     call (client this) headObject
       (<["Key" := VString key]>
          (<["Bucket" := VString (bucket this)]> (default_opts opts)))
       (fun err data => if truthy err then reject err else resolve data))).

(** [put(key, body, opts = {})] calls
    [putObject({...opts, Bucket: this.bucket, Key: key, Body: body},
       (err, data) => err ? reject(err) : resolve(data))]. *)
Definition put (key : string) (body : value) (opts : option object)
    : Method value := fun this =>
  (this,
   new_Promise (fun resolve reject =>
     call (client this) putObject
       (<["Body" := body]>
          (<["Key" := VString key]>
             (<["Bucket" := VString (bucket this)]> (default_opts opts))))
       (fun err data => if truthy err then reject err else resolve data))).

(** [remove(key, opts = {})] calls
    [deleteObject({...opts, Bucket: this.bucket, Key: key}, err =>
       err ? reject(err) : resolve())]; [resolve()] fulfils with
    [undefined]. *)
Definition remove (key : string) (opts : option object) : Method value :=
  fun this =>
  (this,
   new_Promise (fun resolve reject =>
     call (client this) deleteObject
       (<["Key" := VString key]>
          (<["Bucket" := VString (bucket this)]> (default_opts opts)))
       (fun err _ => if truthy err then reject err else resolve VUndefined))).

(** [copy(source, target, opts = {})] calls
    [copyObject({...opts, Bucket: this.bucket, Key: target,
       CopySource: `${this.bucket}/${source}`}, (err, data) =>
       err ? reject(err) : resolve(data))]. *)
Definition copy (source target : string) (opts : option object)
    : Method value := fun this =>
  (this,
   new_Promise (fun resolve reject =>
     call (client this) copyObject
       (<["CopySource" := VString (bucket this +:+ "/" +:+ source)]>
          (<["Key" := VString target]>
             (<["Bucket" := VString (bucket this)]> (default_opts opts))))
       (fun err data => if truthy err then reject err else resolve data))).

End Bucket.

(** ** Exported functions *)

(** [create(client, bucket, opts = {})] calls
    [client.createBucket({...opts, Bucket: bucket}, err =>
       err ? reject(err) : resolve(new Bucket(client, bucket)))]. *)
Definition create (client : S3) (bucket : string) (opts : option object)
    : Operation Bucket.Bucket :=
  new_Promise (fun resolve reject =>
    call client createBucket
      (<["Bucket" := VString bucket]> (default_opts opts))
      (fun err _ =>
         if truthy err then reject err
         else resolve (Bucket.new client bucket))).

(** [get(client, bucket, opts = {})]: the same on [headBucket]. *)
Definition get (client : S3) (bucket : string) (opts : option object)
    : Operation Bucket.Bucket :=
  new_Promise (fun resolve reject =>
    call client headBucket
      (<["Bucket" := VString bucket]> (default_opts opts))
      (fun err _ =>
         if truthy err then reject err
         else resolve (Bucket.new client bucket))).

(** [has(client, bucket, opts = {})] calls
    [client.headBucket({...opts, Bucket: bucket}, (err, data) =>
       resolve(!err && data !== null))]. *)
Definition has (client : S3) (bucket : string) (opts : option object)
    : Operation bool :=
  new_Promise (fun resolve _ =>
    call client headBucket
      (<["Bucket" := VString bucket]> (default_opts opts))
      (fun err data =>
         resolve (negb (truthy err) && negb (strict_eq data VNull)))).

(** [remove(client, bucket, opts = {})] calls
    [client.deleteBucket({...opts, Bucket: bucket}, err =>
       err ? reject(err) : resolve())]. *)
Definition remove (client : S3) (bucket : string) (opts : option object)
    : Operation value :=
  new_Promise (fun resolve reject =>
    call client deleteBucket
      (<["Bucket" := VString bucket]> (default_opts opts))
      (fun err _ => if truthy err then reject err else resolve VUndefined)).

(** ** Quantifying over the entry operations *)

(** One constructor per method of the class, carrying its arguments. *)
Inductive entry_call :=
| Location (opts : option object)
| Get (key : string) (opts : option object)
| Has (key : string) (opts : option object)
| Head (key : string) (opts : option object)
| Put (key : string) (body : value) (opts : option object)
| Remove (key : string) (opts : option object)
| Copy (source target : string) (opts : option object).

(** The request a method call sends to the backend. *)
Definition request_of (c : entry_call) (this : Bucket.Bucket)
    : method * object :=
  match c with
  | Location opts => request (Bucket.location opts this).2
  | Get key opts => request (Bucket.get key opts this).2
  | Has key opts => request (Bucket.has key opts this).2
  | Head key opts => request (Bucket.head key opts this).2
  | Put key body opts => request (Bucket.put key body opts this).2
  | Remove key opts => request (Bucket.remove key opts this).2
  | Copy source target opts => request (Bucket.copy source target opts this).2
  end.

(** The receiver as the method call leaves it. *)
Definition receiver_after (c : entry_call) (this : Bucket.Bucket)
    : Bucket.Bucket :=
  match c with
  | Location opts => (Bucket.location opts this).1
  | Get key opts => (Bucket.get key opts this).1
  | Has key opts => (Bucket.has key opts this).1
  | Head key opts => (Bucket.head key opts this).1
  | Put key body opts => (Bucket.put key body opts this).1
  | Remove key opts => (Bucket.remove key opts this).1
  | Copy source target opts => (Bucket.copy source target opts this).1
  end.

(** The options argument of a call, and the properties the method writes
    after spreading it. *)
Definition opts_of (c : entry_call) : option object :=
  match c with
  | Location opts | Get _ opts | Has _ opts | Head _ opts
  | Put _ _ opts | Remove _ opts | Copy _ _ opts => opts
  end.

Definition written_by (c : entry_call) : list string :=
  match c with
  | Location _ => ["Bucket"]
  | Get _ _ | Has _ _ | Head _ _ | Remove _ _ => ["Bucket"; "Key"]
  | Put _ _ _ => ["Bucket"; "Key"; "Body"]
  | Copy _ _ _ => ["Bucket"; "Key"; "CopySource"]
  end.

(** ** What the backend did, as the promise sees it *)

Inductive event :=
| Invoked (err data : value)
| Threw (e : value).

Definition invocations (calls : list (value * value)) : list event :=
  (fun c => Invoked c.1 c.2) <$> calls.

(** Everything a client method does, in the order it happens. *)
Definition events (b : behaviour) : list event :=
  invocations (sync_calls b)
  ++ match throws b with Some e => [Threw e] | None => [] end
  ++ invocations (async_calls b).

(** The callback is invoked with [(err, data)], and nothing came before. *)
Definition reports (b : behaviour) (err data : value) : Prop :=
  head (events b) = Some (Invoked err data).

(** The method throws without having invoked the callback. *)
Definition throws_first (b : behaviour) (e : value) : Prop :=
  head (events b) = Some (Threw e).

(** The client's reaction to the request an operation sent. *)
Definition response {T} (client : S3) (o : Operation T) : behaviour :=
  client (request o).1 (request o).2.

(** An operation passes a backend error through: reported to the callback,
    it becomes the rejection value as it is. *)
Definition passes_errors_through {T} (client : S3) (o : Operation T) : Prop :=
  ∀ err data,
    reports (response client o) err data →
    truthy err = true →
    promise o = Rejected err.

(** A callback built from the resolving functions settles a pending promise
    and leaves a settled one alone. *)
Definition one_shot {T} (f : callback T) : Prop :=
  ∀ err data,
    f err data Pending ≠ Pending ∧ ∀ p, p ≠ Pending → f err data p = p.

(** ** Sample clients and options *)

(** A client every method of which invokes its callback once, from the
    event loop, with [(err, data)]. *)
Definition answering (err data : value) : S3 :=
  fun _ _ => Behaviour [] None [(err, data)].

(** A client every method of which throws [e] at once (as happens, with a
    [TypeError], when the object handed in as client lacks the method). *)
Definition throwing (e : value) : S3 :=
  fun _ _ => Behaviour [] (Some e) [].

(** [{Bucket: "other", Foo: 1}] *)
Definition other_foo : object :=
  <["Bucket" := VString "other"]> (<["Foo" := VNumber 1%float]> ∅).

(** Some error object and some result object of the backend. *)
Definition an_error : value := VObject 1.
Definition a_result : value := VObject 2.

(** ** Further vocabulary *)

(** The entry key a method writes into [Key], if it writes one. *)
Definition key_of (c : entry_call) : option string :=
  match c with
  | Location _ => None
  | Get key _ | Has key _ | Head key _ | Put key _ _ | Remove key _ =>
      Some key
  | Copy _ target _ => Some target
  end.

(** An exception of the client method, thrown before the callback was
    invoked, becomes the rejection value. *)
Definition rejects_what_is_thrown {T} (client : S3) (o : Operation T)
    : Prop :=
  ∀ e, throws_first (response client o) e → promise o = Rejected e.


(** ** The usage example of the README *)

(** A chain of [then] calls as it ends up: the requests that went to the
    backend, what [console.log] was given, and the state of the last
    promise of the chain. *)
Record Run (T : Type) := {
  sent : list (method * object);
  printed : list value;
  final : Promise T
}.
Arguments sent {T} r.
Arguments printed {T} r.
Arguments final {T} r.

(** The operation the chain starts from. *)
Definition start {T} (o : Operation T) : Run T :=
  {| sent := [request o]; printed := []; final := promise o |}.

(** [p.then(v => op(v))], [op] returning a promise: the handler runs only
    if [p] is fulfilled, and the promise it returns decides the result; a
    rejection of [p] is handed down, and nothing happens while [p] is
    pending. *)
Definition then_ {A B} (r : Run A) (handler : A → Operation B) : Run B :=
  match final r with
  | Fulfilled v =>
      let o := handler v in
      {| sent := sent r ++ [request o];
         printed := printed r;
         final := promise o |}
  | Rejected e => {| sent := sent r; printed := printed r; final := Rejected e |}
  | Pending => {| sent := sent r; printed := printed r; final := Pending |}
  end.

(** [p.then(console.log)]: [console.log] prints its argument and returns
    [undefined]. *)
Definition then_console_log (r : Run value) : Run value :=
  match final r with
  | Fulfilled v =>
      {| sent := sent r;
         printed := printed r ++ [v];
         final := Fulfilled VUndefined |}
  | Rejected e => {| sent := sent r; printed := printed r; final := Rejected e |}
  | Pending => {| sent := sent r; printed := printed r; final := Pending |}
  end.

(** [create(client, 'my-bucket')
       .then(bucket => bucket.put('hello-world.txt', 'Hello World!'))
       .then(console.log)] *)
Definition usage (client : S3) : Run value :=
  then_console_log
    (then_ (start (create client "my-bucket" None))
       (fun bucket =>
          (Bucket.put "hello-world.txt" (VString "Hello World!") None
             bucket).2)).

(** * Properties *)

(** ** The promise is settled by the first thing the client does *)

Lemma resolve_settled {T} (v : T) p : p ≠ Pending → resolve v p = p.
Proof. by destruct p. Qed.

Lemma reject_settled {T} e (p : Promise T) : p ≠ Pending → reject e p = p.
Proof. by destruct p. Qed.

Lemma run_calls_settled {T} (f : callback T) calls p :
  one_shot f → p ≠ Pending → run_calls f calls p = p.
Proof.
  intros Hf. revert p.
  induction calls as [|c calls IH]; intros p Hp; [done|].
  cbn. destruct (Hf c.1 c.2) as [_ Hkeep].
  rewrite (Hkeep p Hp). by apply IH.
Qed.

Lemma run_calls_pending {T} (f : callback T) calls :
  one_shot f →
  run_calls f calls Pending =
    match calls with
    | [] => Pending
    | c :: _ => f c.1 c.2 Pending
    end.
Proof.
  intros Hf. destruct calls as [|c calls]; [done|].
  cbn. apply run_calls_settled; [done|]. apply Hf.
Qed.

Lemma new_Promise_first_event {T}
    (executor : (T → settle T) → (value → settle T) → invocation T) :
  let i := executor resolve reject in
  one_shot (cb i) →
  promise (new_Promise executor) =
    match head (events (target i (via i) (params i))) with
    | None => Pending
    | Some (Invoked err data) => cb i err data Pending
    | Some (Threw e) => Rejected e
    end.
Proof.
  intros i Hf. unfold new_Promise. fold i.
  destruct (target i (via i) (params i)) as [sync thrown async].
  unfold events, promise, sync_calls, throws, async_calls.
  destruct sync as [|c sync].
  - rewrite run_calls_pending by done.
    destruct thrown as [e|].
    + by apply run_calls_settled.
    + rewrite run_calls_pending by done. by destruct async.
  - pose proof (proj1 (Hf c.1 c.2)) as Hc.
    rewrite (run_calls_pending _ (c :: sync)) by done.
    change (head _) with (Some (Invoked c.1 c.2)).
    destruct thrown as [e|].
    + rewrite reject_settled by done. by apply run_calls_settled.
    + by apply run_calls_settled.
Qed.

(** The two callback shapes of the source are one-shot. *)
Lemma forwarding_one_shot {T} (ok : value → T) :
  one_shot (fun err data =>
              if truthy err then reject err else resolve (ok data)).
Proof.
  intros err data. split.
  - by destruct (truthy err).
  - intros p Hp. destruct (truthy err);
      [by apply reject_settled | by apply resolve_settled].
Qed.

Lemma probing_one_shot :
  one_shot (fun err data =>
              resolve (negb (truthy err) && negb (strict_eq data VNull))).
Proof.
  intros err data. split; [done|]. intros p Hp. by apply resolve_settled.
Qed.

(** [data !== null] *)
Lemma strict_eq_null v : strict_eq v VNull = true ↔ v = VNull.
Proof. destruct v; cbn; split; congruence. Qed.

(** How an operation settles, for each of the two callback shapes. *)
Lemma forwarding_settles {T} (client : S3) m req (ok : value → T) :
  promise (new_Promise (fun resolve reject =>
             call client m req (fun err data =>
               if truthy err then reject err else resolve (ok data)))) =
    match head (events (client m req)) with
    | None => Pending
    | Some (Invoked err data) =>
        if truthy err then Rejected err else Fulfilled (ok data)
    | Some (Threw e) => Rejected e
    end.
Proof.
  rewrite new_Promise_first_event by apply forwarding_one_shot.
  cbn. destruct (head _) as [[err data|e]|]; try done.
  by destruct (truthy err).
Qed.

Lemma probing_settles (client : S3) m req :
  promise (new_Promise (fun resolve _ =>
             call client m req (fun err data =>
               resolve (negb (truthy err) && negb (strict_eq data VNull))))) =
    match head (events (client m req)) with
    | None => Pending
    | Some (Invoked err data) =>
        Fulfilled (negb (truthy err) && negb (strict_eq data VNull))
    | Some (Threw e) => Rejected e
    end.
Proof.
  rewrite new_Promise_first_event by apply probing_one_shot.
  reflexivity.
Qed.

(** ** [has]: errors reported to the callback become [false] *)

(** C1, at a client that throws: the executor of [has] lets the exception
    escape, so the promise of either [has] is rejected with it. *)
Lemma has_rejects_when_client_throws :
  throws_first (response (throwing an_error)
                  (has (throwing an_error) "mine" None)) an_error
  ∧ promise (has (throwing an_error) "mine" None) = Rejected an_error
  ∧ promise (Bucket.has "k" None
               (Bucket.new (throwing an_error) "mine")).2 = Rejected an_error.
Proof. repeat split. Qed.

(** C1 (amended): for the bucket-level and the entry-level [has] and every
    behaviour of the client, the promise is rejected exactly when the client
    method throws before it has invoked the callback (with what was
    thrown); an error reported to the callback resolves it to [false]; and
    it resolves to [true] only when the callback was given no error and a
    result other than [null]. *)
Theorem has_swallows_reported_errors
    client bucket key opts (o : Operation bool) :
  o = has client bucket opts
  ∨ o = (Bucket.has key opts (Bucket.new client bucket)).2 →
  (∀ e, promise o = Rejected e ↔ throws_first (response client o) e)
  ∧ (∀ err data,
       reports (response client o) err data →
       truthy err = true →
       promise o = Fulfilled false)
  ∧ (promise o = Fulfilled true →
     ∃ err data,
       reports (response client o) err data
       ∧ truthy err = false ∧ data ≠ VNull).
Proof.
  intros Ho.
  assert (Hs : promise o =
    match head (events (response client o)) with
    | None => Pending
    | Some (Invoked err data) =>
        Fulfilled (negb (truthy err) && negb (strict_eq data VNull))
    | Some (Threw e) => Rejected e
    end) by (destruct Ho as [-> | ->]; apply probing_settles).
  rewrite Hs. unfold reports, throws_first.
  destruct (head _) as [[err data|e']|]; repeat split; try congruence.
  - intros err' data' [= -> ->] Herr. by rewrite Herr.
  - intros [= Htrue]. apply andb_true_iff in Htrue as [Herr Hdata].
    exists err, data. repeat split.
    + by apply negb_true_iff.
    + intros ->. discriminate.
Qed.

Lemma has_swallows_reported_errors_witness :
  reports (response (answering an_error VUndefined)
             (has (answering an_error VUndefined) "mine" None))
    an_error VUndefined
  ∧ truthy an_error = true
  ∧ promise (has (answering an_error VUndefined) "mine" None)
    = Fulfilled false.
Proof.
  split; [reflexivity|]. split; [reflexivity|].
  eapply (has_swallows_reported_errors
            (answering an_error VUndefined) "mine" "k" None).
  - left. reflexivity.
  - reflexivity.
  - reflexivity.
Defined.

(** ** Options merging *)

(** C2, at [get("k", {Bucket: "other", Foo: 1})] on a handle for "mine":
    the request also carries [Key], so it is not the options with only
    [Bucket] overwritten. *)
Lemma get_request_has_more_than_bucket :
  (request (Bucket.get "k" (Some other_foo)
              (Bucket.new (answering VNull a_result) "mine")).2).2
  ≠ <["Bucket" := VString "mine"]> other_foo.
Proof.
  intros Heq. apply (f_equal (.!! "Key")) in Heq.
  vm_compute in Heq. discriminate.
Qed.

(** C2 (amended): the request of each bucket-level function and of
    [location] is the options mapping with [Bucket] overwritten by the
    bucket; the request of every entry operation has the bound bucket in
    [Bucket] and agrees with the options on every property other than the
    ones the operation writes itself ([Bucket], and [Key], [Body],
    [CopySource] where it has them); so with options
    [{Bucket: "other", Foo: 1}] on a handle for "mine" the request has
    [Bucket: "mine"] and [Foo: 1]. *)
Theorem options_merging client bucket opts (c : entry_call) :
  let this := Bucket.new client bucket in
  let merged := <["Bucket" := VString bucket]> (default_opts opts) in
  ((request (create client bucket opts)).2 = merged
   ∧ (request (get client bucket opts)).2 = merged
   ∧ (request (has client bucket opts)).2 = merged
   ∧ (request (remove client bucket opts)).2 = merged
   ∧ (request (Bucket.location opts this).2).2 = merged)
  ∧ (request_of c this).2 !! "Bucket" = Some (VString bucket)
  ∧ (∀ f, f ∉ written_by c →
          (request_of c this).2 !! f = default_opts (opts_of c) !! f)
  ∧ (opts_of c = Some other_foo →
     (request_of c this).2 !! "Foo" = Some (VNumber 1)).
Proof.
  intros this merged.
  assert (Hother : ∀ f, f ∉ written_by c →
            (request_of c this).2 !! f = default_opts (opts_of c) !! f).
  { intros f Hf. destruct c; cbn in *;
      repeat (apply not_elem_of_cons in Hf as [? Hf]);
      by simplify_map_eq. }
  split; [done|]. split; [|split; [done|]].
  - destruct c; cbn; by simplify_map_eq.
  - intros Hopts. rewrite Hother, Hopts; [done|].
    destruct c; cbn; repeat (apply not_elem_of_cons; split; [done|]);
      apply not_elem_of_nil.
Qed.

Lemma options_merging_witness :
  opts_of (Put "k" (VString "v") (Some other_foo)) = Some other_foo
  ∧ (request (Bucket.put "k" (VString "v") (Some other_foo)
                (Bucket.new (answering VNull a_result) "mine")).2).2 !! "Foo"
    = Some (VNumber 1).
Proof.
  split; [reflexivity|].
  apply (options_merging (answering VNull a_result) "mine" None
           (Put "k" (VString "v") (Some other_foo))).
  reflexivity.
Defined.

(** ** [copy] *)

(** C3: [copy(source, target)] on a handle bound to [b] sends a copyObject
    request whose [CopySource] is [b], then "/", then [source], whose [Key]
    is [target] and whose [Bucket] is [b]. *)
Theorem copy_request client b source target opts :
  let r := request (Bucket.copy source target opts (Bucket.new client b)).2 in
  r.1 = copyObject
  ∧ r.2 !! "CopySource" = Some (VString (b +:+ "/" +:+ source))
  ∧ r.2 !! "Key" = Some (VString target)
  ∧ r.2 !! "Bucket" = Some (VString b).
Proof. cbn. repeat split; by simplify_map_eq. Qed.

Example copy_request_mine :
  (request (Bucket.copy "a.txt" "b.txt"
              (Some (<["CopySource" := VString "other/z"]> other_foo))
              (Bucket.new (answering VNull a_result) "mine")).2).2
    !! "CopySource"
  = Some (VString "mine/a.txt").
Proof. vm_compute. reflexivity. Qed.

(** ** [create] and [get] *)

Lemma handle_settles client m req bucket :
  promise (new_Promise (fun resolve reject =>
             call client m req (fun err _ =>
               if truthy err then reject err
               else resolve (Bucket.new client bucket)))) =
    match head (events (client m req)) with
    | None => Pending
    | Some (Invoked err _) =>
        if truthy err then Rejected err
        else Fulfilled (Bucket.new client bucket)
    | Some (Threw e) => Rejected e
    end.
Proof. apply (forwarding_settles _ _ _ (fun _ => Bucket.new client bucket)). Qed.

(** C4: when the callback of the bucket-level [create] or [get] is given no
    error, the promise resolves to a handle holding exactly the client and
    the bucket passed in; when it is given an error, the promise is rejected
    with that very value. *)
Theorem create_and_get_settle
    client bucket opts (o : Operation Bucket.Bucket) err data :
  o = create client bucket opts ∨ o = get client bucket opts →
  reports (response client o) err data →
  (truthy err = false → promise o = Fulfilled (Bucket.new client bucket))
  ∧ (truthy err = true → promise o = Rejected err).
Proof.
  intros Ho Hr.
  assert (Hs : promise o =
    match head (events (response client o)) with
    | None => Pending
    | Some (Invoked err _) =>
        if truthy err then Rejected err
        else Fulfilled (Bucket.new client bucket)
    | Some (Threw e) => Rejected e
    end) by (destruct Ho as [-> | ->]; apply handle_settles).
  rewrite Hs, Hr. split; by intros ->.
Qed.

Lemma create_and_get_settle_witness :
  reports (response (answering an_error VUndefined)
             (get (answering an_error VUndefined) "mine" None))
    an_error VUndefined
  ∧ promise (get (answering an_error VUndefined) "mine" None)
    = Rejected an_error.
Proof.
  split; [reflexivity|].
  apply (create_and_get_settle (answering an_error VUndefined) "mine" None
           (get (answering an_error VUndefined) "mine" None)
           an_error VUndefined).
  - right. reflexivity.
  - reflexivity.
  - reflexivity.
Defined.

(** C5: a handle that a [create] for bucket [b] resolved to puts [b] in the
    [Bucket] property of the request of every entry operation. *)
Theorem created_handle_injects_bucket client b opts h (c : entry_call) :
  promise (create client b opts) = Fulfilled h →
  (request_of c h).2 !! "Bucket" = Some (VString b).
Proof.
  unfold create. rewrite handle_settles.
  destruct (head _) as [[err data|e]|]; try done.
  destruct (truthy err); [done|]. intros [= <-].
  destruct c; cbn; by simplify_map_eq.
Qed.

Lemma created_handle_injects_bucket_witness :
  promise (create (answering VNull a_result) "my-bucket" None)
  = Fulfilled (Bucket.new (answering VNull a_result) "my-bucket")
  ∧ (request (Bucket.put "hello.txt" (VString "Hello World!") None
                (Bucket.new (answering VNull a_result) "my-bucket")).2).2
      !! "Bucket"
    = Some (VString "my-bucket").
Proof.
  split; [reflexivity|].
  apply (created_handle_injects_bucket (answering VNull a_result)
           "my-bucket" None _
           (Put "hello.txt" (VString "Hello World!") None)).
  reflexivity.
Defined.

(** ** Errors pass through *)

Lemma forwarding_passes_errors {T} (client : S3) m req (ok : value → T) :
  passes_errors_through client
    (new_Promise (fun resolve reject =>
       call client m req (fun err data =>
         if truthy err then reject err else resolve (ok data)))).
Proof.
  intros err data Hr Herr. rewrite forwarding_settles.
  unfold reports, response in Hr. cbn in Hr. by rewrite Hr, Herr.
Qed.

(** C6: in [location], the entry-level [get], [head], [put], [remove] and
    [copy], and the bucket-level [create], [get] and [remove], an error
    given to the callback is the rejection value of the promise, the same
    value and nothing around it. *)
Theorem backend_errors_pass_through
    client bucket key body source target opts :
  let this := Bucket.new client bucket in
  passes_errors_through client (Bucket.location opts this).2
  ∧ passes_errors_through client (Bucket.get key opts this).2
  ∧ passes_errors_through client (Bucket.head key opts this).2
  ∧ passes_errors_through client (Bucket.put key body opts this).2
  ∧ passes_errors_through client (Bucket.remove key opts this).2
  ∧ passes_errors_through client (Bucket.copy source target opts this).2
  ∧ passes_errors_through client (create client bucket opts)
  ∧ passes_errors_through client (get client bucket opts)
  ∧ passes_errors_through client (remove client bucket opts).
Proof.
  intros this. repeat split.
  1-4, 6: apply (forwarding_passes_errors _ _ _ (fun data => data)).
  1, 4: apply (forwarding_passes_errors _ _ _ (fun _ => VUndefined)).
  all: apply (forwarding_passes_errors _ _ _
                (fun _ => Bucket.new client bucket)).
Qed.

Lemma backend_errors_pass_through_witness :
  reports (response (answering an_error VNull)
             (Bucket.put "k" (VString "v") None
                (Bucket.new (answering an_error VNull) "mine")).2)
    an_error VNull
  ∧ truthy an_error = true
  ∧ promise (Bucket.put "k" (VString "v") None
               (Bucket.new (answering an_error VNull) "mine")).2
    = Rejected an_error.
Proof.
  split; [reflexivity|]. split; [reflexivity|].
  destruct (backend_errors_pass_through (answering an_error VNull)
              "mine" "k" (VString "v") "s" "t" None)
    as (_ & _ & _ & Hput & _).
  apply (Hput an_error VNull); reflexivity.
Defined.

(** ** [remove] *)

Lemma void_settles (client : S3) m req :
  promise (new_Promise (fun resolve reject =>
             call client m req (fun err _ =>
               if truthy err then reject err else resolve VUndefined))) =
    match head (events (client m req)) with
    | None => Pending
    | Some (Invoked err _) =>
        if truthy err then Rejected err else Fulfilled VUndefined
    | Some (Threw e) => Rejected e
    end.
Proof. apply (forwarding_settles _ _ _ (fun _ => VUndefined)). Qed.

(** C7: the entry-level and the bucket-level [remove] resolve to
    [undefined] whenever the callback is given no error, whatever else it
    is given. *)
Theorem remove_resolves_with_no_value
    client bucket key opts (o : Operation value) err data :
  o = remove client bucket opts
  ∨ o = (Bucket.remove key opts (Bucket.new client bucket)).2 →
  reports (response client o) err data →
  truthy err = false →
  promise o = Fulfilled VUndefined.
Proof.
  intros Ho Hr Herr.
  assert (Hs : promise o =
    match head (events (response client o)) with
    | None => Pending
    | Some (Invoked err _) =>
        if truthy err then Rejected err else Fulfilled VUndefined
    | Some (Threw e) => Rejected e
    end)
    by (destruct Ho as [-> | ->]; apply void_settles).
  by rewrite Hs, Hr, Herr.
Qed.

Lemma remove_resolves_with_no_value_witness :
  reports (response (answering VNull a_result)
             (Bucket.remove "x.txt" None
                (Bucket.new (answering VNull a_result) "mine")).2)
    VNull a_result
  ∧ truthy VNull = false
  ∧ promise (Bucket.remove "x.txt" None
               (Bucket.new (answering VNull a_result) "mine")).2
    = Fulfilled VUndefined.
Proof.
  split; [reflexivity|]. split; [reflexivity|].
  apply (remove_resolves_with_no_value (answering VNull a_result)
           "mine" "x.txt" None _ VNull a_result).
  - right. reflexivity.
  - reflexivity.
  - reflexivity.
Defined.

(** ** The handle *)

(** C8: every entry operation leaves the client and the bucket of its
    handle as they were, and the request it sends is a function of the
    bucket, the arguments and the options alone: a handle for the same
    bucket on any other client sends the same. *)
Theorem handle_is_never_mutated (c : entry_call) (this : Bucket.Bucket) :
  receiver_after c this = this
  ∧ Bucket.client (receiver_after c this) = Bucket.client this
  ∧ Bucket.bucket (receiver_after c this) = Bucket.bucket this
  ∧ ∀ client',
      request_of c (Bucket.new client' (Bucket.bucket this))
      = request_of c this.
Proof. by destruct c. Qed.

(** ** [put] *)

(** C9: the [Body] of the request of [put(key, body, opts)] is [body],
    whatever [opts] holds under [Body]. *)
Theorem put_body_takes_precedence client bucket key body opts :
  (request (Bucket.put key body opts (Bucket.new client bucket)).2).1
  = putObject
  ∧ (request (Bucket.put key body opts (Bucket.new client bucket)).2).2
      !! "Body"
    = Some body.
Proof. cbn. split; by simplify_map_eq. Qed.

Example put_body_over_options :
  (request (Bucket.put "k" (VString "mine")
              (Some (<["Body" := VString "theirs"]> other_foo))
              (Bucket.new (answering VNull a_result) "b")).2).2 !! "Body"
  = Some (VString "mine").
Proof. vm_compute. reflexivity. Qed.

(** ** [has] on an absent result *)

(** C10: when the callback of the bucket-level or the entry-level [has] is
    given no error and [undefined] as data, the promise resolves to
    [true]. *)
Theorem has_true_on_undefined_data
    client bucket key opts (o : Operation bool) err :
  o = has client bucket opts
  ∨ o = (Bucket.has key opts (Bucket.new client bucket)).2 →
  reports (response client o) err VUndefined →
  truthy err = false →
  promise o = Fulfilled true.
Proof.
  intros Ho Hr Herr.
  assert (Hs : promise o =
    match head (events (response client o)) with
    | None => Pending
    | Some (Invoked err data) =>
        Fulfilled (negb (truthy err) && negb (strict_eq data VNull))
    | Some (Threw e) => Rejected e
    end) by (destruct Ho as [-> | ->]; apply probing_settles).
  by rewrite Hs, Hr, Herr.
Qed.

Lemma has_true_on_undefined_data_witness :
  reports (response (answering VNull VUndefined)
             (has (answering VNull VUndefined) "mine" None))
    VNull VUndefined
  ∧ truthy VNull = false
  ∧ promise (has (answering VNull VUndefined) "mine" None) = Fulfilled true.
Proof.
  split; [reflexivity|]. split; [reflexivity|].
  apply (has_true_on_undefined_data (answering VNull VUndefined)
           "mine" "k" None _ VNull).
  - left. reflexivity.
  - reflexivity.
  - reflexivity.
Defined.

(** ** Sanity checks *)

(** The falsy values. *)
Example falsy_values :
  truthy VUndefined = false ∧ truthy VNull = false
  ∧ truthy (VBoolean false) = false
  ∧ truthy (VNumber 0) = false ∧ truthy (VNumber (-0)) = false
  ∧ truthy (VNumber nan) = false
  ∧ truthy (VBigInt 0) = false ∧ truthy (VString "") = false
  ∧ truthy (VNumber 1) = true ∧ truthy (VString "0") = true
  ∧ truthy an_error = true.
Proof. vm_compute. repeat split. Qed.

(** Only the first settlement counts: a callback invoked twice, and a
    client that throws after having called back. *)
Example first_settlement_wins :
  promise (has (fun _ _ => Behaviour [] None
                  [(VNull, a_result); (an_error, VUndefined)]) "mine" None)
  = Fulfilled true
  ∧ promise (remove (fun _ _ => Behaviour [(VNull, VUndefined)]
                       (Some an_error) []) "mine" None)
    = Fulfilled VUndefined
  ∧ promise (get (fun _ _ => Behaviour [] None []) "mine" None) = Pending.
Proof. repeat split. Qed.

(** ** The scenarios of the README *)

(** [create(client, 'my-bucket').then(bucket => bucket.put(...))] against a
    backend that accepts everything. *)
Example create_then_put :
  ∃ h,
    promise (create (answering VNull a_result) "my-bucket" None) = Fulfilled h
    ∧ promise (Bucket.put "hello-world.txt" (VString "Hello World!") None h).2
      = Fulfilled a_result.
Proof. eexists. split; reflexivity. Qed.

(** [has] of a missing entry, then of one the backend knows, then of one
    for which the backend hands [null] to the callback. *)
Example has_scenarios :
  promise (Bucket.has "missing.txt" None
             (Bucket.new (answering an_error VNull) "mine")).2
  = Fulfilled false
  ∧ promise (Bucket.has "x.txt" None
               (Bucket.new (answering VNull a_result) "mine")).2
    = Fulfilled true
  ∧ promise (has (answering VNull VNull) "mine" None) = Fulfilled false.
Proof. repeat split. Qed.

(** * Further properties *)

(** ** Results pass through *)

Lemma data_settles (client : S3) m req :
  promise (new_Promise (fun resolve reject =>
             call client m req (fun err data =>
               if truthy err then reject err else resolve data))) =
    match head (events (client m req)) with
    | None => Pending
    | Some (Invoked err data) =>
        if truthy err then Rejected err else Fulfilled data
    | Some (Threw e) => Rejected e
    end.
Proof. apply (forwarding_settles _ _ _ (fun data => data)). Qed.



(** ** A client that throws, a client that stays silent *)

Lemma one_shot_rejects_what_is_thrown {T} (client : S3) m req
    (f : callback T) :
  one_shot f →
  rejects_what_is_thrown client
    (new_Promise (fun _ _ => call client m req f)).
Proof.
  intros Hf e He. rewrite new_Promise_first_event by done.
  unfold throws_first, response in He. cbn in *. by rewrite He.
Qed.


(** X2: in every operation, entry-level or bucket-level, an exception
    the client method throws before it has invoked the callback rejects
    the promise with the value thrown; no operation catches it. *)
Theorem client_exceptions_reject
    client bucket key body source target opts :
  let this := Bucket.new client bucket in
  rejects_what_is_thrown client (Bucket.location opts this).2
  ∧ rejects_what_is_thrown client (Bucket.get key opts this).2
  ∧ rejects_what_is_thrown client (Bucket.has key opts this).2
  ∧ rejects_what_is_thrown client (Bucket.head key opts this).2
  ∧ rejects_what_is_thrown client (Bucket.put key body opts this).2
  ∧ rejects_what_is_thrown client (Bucket.remove key opts this).2
  ∧ rejects_what_is_thrown client (Bucket.copy source target opts this).2
  ∧ rejects_what_is_thrown client (create client bucket opts)
  ∧ rejects_what_is_thrown client (get client bucket opts)
  ∧ rejects_what_is_thrown client (has client bucket opts)
  ∧ rejects_what_is_thrown client (remove client bucket opts).
Proof.
  intros this.
  repeat split; apply one_shot_rejects_what_is_thrown;
    first [ apply probing_one_shot
          | apply (forwarding_one_shot (fun data => data))
          | apply (forwarding_one_shot (fun _ => VUndefined))
          | apply (forwarding_one_shot (fun _ => Bucket.new client bucket)) ].
Qed.

Lemma client_exceptions_reject_witness :
  throws_first (response (throwing an_error)
                  (create (throwing an_error) "mine" None)) an_error
  ∧ promise (create (throwing an_error) "mine" None) = Rejected an_error.
Proof.
  split; [reflexivity|].
  destruct (client_exceptions_reject (throwing an_error)
              "mine" "k" VNull "s" "t" None)
    as (_ & _ & _ & _ & _ & _ & _ & Hcreate & _).
  apply (Hcreate an_error). reflexivity.
Defined.


(** ** What [has] answers *)

(** X4: [has], at bucket or entry level, resolves to [true] exactly when
    the callback is given no error and data other than [null] (data that is
    [undefined], [0], [false] or the empty string counts as present), and to
    [false] exactly when it is given an error or [null] as data. *)
Theorem has_answer client bucket key opts (o : Operation bool) :
  o = has client bucket opts
  ∨ o = (Bucket.has key opts (Bucket.new client bucket)).2 →
  (promise o = Fulfilled true ↔
     ∃ err data, reports (response client o) err data
                 ∧ truthy err = false ∧ data ≠ VNull)
  ∧ (promise o = Fulfilled false ↔
       ∃ err data, reports (response client o) err data
                   ∧ (truthy err = true ∨ data = VNull)).
Proof.
  intros Ho.
  assert (Hs : promise o =
    match head (events (response client o)) with
    | None => Pending
    | Some (Invoked err data) =>
        Fulfilled (negb (truthy err) && negb (strict_eq data VNull))
    | Some (Threw e) => Rejected e
    end) by (destruct Ho as [-> | ->]; apply probing_settles).
  rewrite Hs. unfold reports.
  destruct (head _) as [[err data|e]|].
  2, 3: split; (split; [done | by intros (? & ? & ? & _)]).
  split; split.
  - intros [= [Herr Hdata]%andb_true_iff]. exists err, data.
    split; [done|]. split; [by apply negb_true_iff|]. by intros ->.
  - intros (err' & data' & [= <- <-] & -> & Hdata). f_equal.
    destruct (strict_eq data VNull) eqn:Hnull; [|done].
    by apply strict_eq_null in Hnull.
  - intros [= [Herr|Hdata]%andb_false_iff]; exists err, data; split; try done.
    + left. by apply negb_false_iff.
    + right. by apply strict_eq_null, negb_false_iff.
  - intros (err' & data' & [= <- <-] & [-> | ->]); [done|].
    f_equal. apply andb_false_r.
Qed.

Lemma has_answer_witness :
  promise (has (answering VNull (VNumber 0)) "mine" None) = Fulfilled true.
Proof.
  apply (has_answer (answering VNull (VNumber 0)) "mine" "k" None).
  - left. reflexivity.
  - exists VNull, (VNumber 0). split; [reflexivity|]. split; [reflexivity|].
    discriminate.
Defined.





(** ** More on the requests *)

(** X7: the [Key] of the request of [get], [has], [head], [put] and
    [remove] is the key argument, and that of [copy] is the target,
    whatever the options hold under [Key]; [location] writes no [Key] and
    forwards the one of the options, if any. *)
Theorem key_takes_precedence (c : entry_call) (this : Bucket.Bucket) :
  (request_of c this).2 !! "Key" =
    match key_of c with
    | Some key => Some (VString key)
    | None => default_opts (opts_of c) !! "Key"
    end.
Proof. destruct c; cbn; by simplify_map_eq. Qed.

Example location_forwards_key :
  (request (Bucket.location (Some {["Key" := VString "x"]})
              (Bucket.new (answering VNull a_result) "mine")).2).2 !! "Key"
  = Some (VString "x").
Proof. vm_compute. reflexivity. Qed.

(** X8: a request holds the properties of the options and the ones the
    operation writes, and no others; so with the options left out it holds
    exactly the written ones. *)
Theorem request_fields (c : entry_call) (this : Bucket.Bucket) :
  dom (request_of c this).2
  = dom (default_opts (opts_of c)) ∪ list_to_set (written_by c)
  ∧ (opts_of c = None →
     dom (request_of c this).2 = list_to_set (written_by c)).
Proof.
  assert (Hdom : dom (request_of c this).2
            = dom (default_opts (opts_of c)) ∪ list_to_set (written_by c)).
  { destruct c; cbn; rewrite !dom_insert_L;
      apply set_eq; intros f; set_unfold; tauto. }
  split; [done|]. intros Hopts. rewrite Hdom, Hopts. cbn.
  rewrite dom_empty_L. apply union_empty_l_L.
Qed.

Lemma request_fields_witness :
  opts_of (Remove "x.txt" None) = None
  ∧ dom (request (Bucket.remove "x.txt" None
                    (Bucket.new (answering VNull a_result) "mine")).2).2
    = list_to_set ["Bucket"; "Key"].
Proof.
  split; [reflexivity|].
  apply (request_fields (Remove "x.txt" None)
           (Bucket.new (answering VNull a_result) "mine")).
  reflexivity.
Defined.

Lemma append_cancel_l (b x y : string) : b +:+ x = b +:+ y → x = y.
Proof.
  induction b as [|a b IH]; cbn; [done|]. intros [= Heq]. by apply IH.
Qed.

(** X9: on one handle, [copy] from two different sources sends two
    different [CopySource] references, whatever the targets and options. *)
Theorem copy_source_tells_sources_apart
    client b source1 source2 target1 target2 opts1 opts2 :
  let this := Bucket.new client b in
  source1 ≠ source2 →
  (request (Bucket.copy source1 target1 opts1 this).2).2 !! "CopySource"
  ≠ (request (Bucket.copy source2 target2 opts2 this).2).2 !! "CopySource".
Proof.
  intros this Hne. cbn. rewrite !lookup_insert_eq.
  intros [= Heq]. apply Hne.
  by apply (append_cancel_l "/"), (append_cancel_l b).
Qed.

Lemma copy_source_tells_sources_apart_witness :
  "a" ≠ "b"
  ∧ (request (Bucket.copy "a" "t" None
                (Bucket.new (answering VNull a_result) "mine")).2).2
      !! "CopySource"
    ≠ (request (Bucket.copy "b" "t" None
                  (Bucket.new (answering VNull a_result) "mine")).2).2
        !! "CopySource".
Proof.
  split; [discriminate|].
  apply (copy_source_tells_sources_apart (answering VNull a_result)
           "mine" "a" "b" "t" "t" None None).
  discriminate.
Defined.

(** Across handles the reference is ambiguous: nothing is escaped. *)
Example copy_source_across_buckets :
  (request (Bucket.copy "c" "t" None
              (Bucket.new (answering VNull a_result) "a/b")).2).2
    !! "CopySource"
  = (request (Bucket.copy "b/c" "t" None
                (Bucket.new (answering VNull a_result) "a")).2).2
      !! "CopySource".
Proof. vm_compute. reflexivity. Qed.

(** ** Handles from [get] *)

(** X10: a handle the bucket-level [get] resolved to holds the client and
    the bucket [get] was called with, and so puts that bucket in the
    [Bucket] of the request of every entry operation. *)
Theorem got_handle_injects_bucket client b opts h (c : entry_call) :
  promise (get client b opts) = Fulfilled h →
  h = Bucket.new client b
  ∧ (request_of c h).2 !! "Bucket" = Some (VString b).
Proof.
  unfold get. rewrite handle_settles.
  destruct (head _) as [[err data|e]|]; try done.
  destruct (truthy err); [done|]. intros [= <-]. split; [done|].
  destruct c; cbn; by simplify_map_eq.
Qed.

Lemma got_handle_injects_bucket_witness :
  promise (get (answering VNull a_result) "mine" None)
  = Fulfilled (Bucket.new (answering VNull a_result) "mine")
  ∧ (request (Bucket.location None
                (Bucket.new (answering VNull a_result) "mine")).2).2
      !! "Bucket"
    = Some (VString "mine").
Proof.
  split; [reflexivity|].
  apply (got_handle_injects_bucket (answering VNull a_result) "mine" None _
           (Location None)).
  reflexivity.
Defined.

(** ** The usage example *)

Lemma create_outcome client bucket opts err data :
  reports (response client (create client bucket opts)) err data →
  promise (create client bucket opts) =
    if truthy err then Rejected err
    else Fulfilled (Bucket.new client bucket).
Proof.
  intros Hr. unfold create. rewrite handle_settles.
  unfold reports, response in Hr. cbn in Hr. by rewrite Hr.
Qed.

Lemma put_outcome client bucket key body opts err data :
  reports (response client
             (Bucket.put key body opts (Bucket.new client bucket)).2)
    err data →
  promise (Bucket.put key body opts (Bucket.new client bucket)).2 =
    if truthy err then Rejected err else Fulfilled data.
Proof.
  intros Hr. unfold Bucket.put. cbn [snd Bucket.client Bucket.bucket].
  rewrite data_settles.
  unfold reports, response in Hr. cbn in Hr. by rewrite Hr.
Qed.



(** X12: when the backend answers the createBucket call of the README's
    chain with an error, no putObject request is sent, nothing is printed,
    and the chain ends rejected with that error; when it accepts the
    createBucket call and answers the putObject call with an error, both
    requests have been sent, nothing is printed, and the chain ends rejected
    with the error of the put. *)
Theorem usage_stops_at_the_first_error client err data :
  let c := create client "my-bucket" None in
  let p := (Bucket.put "hello-world.txt" (VString "Hello World!") None
              (Bucket.new client "my-bucket")).2 in
  truthy err = true →
  (reports (response client c) err data →
   sent (usage client) = [request c]
   ∧ printed (usage client) = []
   ∧ final (usage client) = Rejected err)
  ∧ (∀ err1 data1,
       reports (response client c) err1 data1 → truthy err1 = false →
       reports (response client p) err data →
       sent (usage client) = [request c; request p]
       ∧ printed (usage client) = []
       ∧ final (usage client) = Rejected err).
Proof.
  intros c p Herr. subst c p. split.
  - intros Hc. apply create_outcome in Hc. rewrite Herr in Hc.
    unfold usage, then_console_log, then_, start.
    cbn [final sent printed]. rewrite Hc. done.
  - intros err1 data1 Hc Herr1 Hp.
    apply create_outcome in Hc. apply put_outcome in Hp.
    rewrite Herr1 in Hc. rewrite Herr in Hp.
    unfold usage, then_console_log, then_, start.
    cbn [final sent printed]. rewrite Hc. cbn [final sent printed].
    rewrite Hp. done.
Qed.

Lemma usage_stops_at_the_first_error_witness :
  truthy an_error = true
  ∧ (sent (usage (answering an_error VNull))
     = [(createBucket, <["Bucket" := VString "my-bucket"]> ∅)]
     ∧ printed (usage (answering an_error VNull)) = []
     ∧ final (usage (answering an_error VNull)) = Rejected an_error)
  ∧ (printed (usage (fun m _ =>
                match m with
                | createBucket => Behaviour [] None [(VNull, a_result)]
                | _ => Behaviour [] None [(an_error, VNull)]
                end)) = []
     ∧ final (usage (fun m _ =>
                match m with
                | createBucket => Behaviour [] None [(VNull, a_result)]
                | _ => Behaviour [] None [(an_error, VNull)]
                end)) = Rejected an_error).
Proof.
  split; [reflexivity|]. split.
  - destruct (usage_stops_at_the_first_error (answering an_error VNull)
                an_error VNull) as [Hcreate _]; [reflexivity|].
    apply Hcreate. reflexivity.
  - destruct (usage_stops_at_the_first_error
                (fun m _ =>
                   match m with
                   | createBucket => Behaviour [] None [(VNull, a_result)]
                   | _ => Behaviour [] None [(an_error, VNull)]
                   end)
                an_error VNull) as [_ Hput]; [reflexivity|].
    apply (Hput VNull a_result); reflexivity.
Defined.
